(** * A shallow embedding of [core/CloudRF.py] (APIv2, new-python-wip)

    The class [CloudRF] validates its inputs once, loads a JSON template,
    optionally reads a CSV whose header names dot-notation paths into the
    template, and sends one POST request per CSV row (or one request for
    the bare template).  This file models, after argument parsing:
    - [__customiseJsonFromCsvRow] (override merging),
    - [__validateApiKey], [__validateRequestType], [__validateCsv]
      (over the records [csv.DictReader] receives from [csv.reader]),
    - [__calculate] and [__checkHttpResponse] (the request loop),
    - the body of [__init__] that chains them.
    [sys.exit(msg)] is modelled as the outcome [Exit msg], an uncaught
    Python exception as [Raise e]. *)

From Stdlib Require Import String Ascii List ZArith QArith Bool Lia.
Import ListNotations.
Open Scope string_scope.
Open Scope list_scope.
Set Warnings "-register-all".

(** ** JSON values as produced by [json.load] *)

Inductive json : Type :=
| JNull
| JBool (b : bool)
| JNum (q : Q)
| JStr (s : string)
| JArr (l : list json)
| JObj (o : list (string * json)).

(** A JSON object / Python [dict] with string keys, in insertion order. *)
Definition jobj := list (string * json).

(** [d[k]] for a [dict]: [None] is the [KeyError] case. *)
Fixpoint dict_get {V} (k : string) (d : list (string * V)) : option V :=
  match d with
  | [] => None
  | (k', v) :: d' => if String.eqb k k' then Some v else dict_get k d'
  end.

(** [d[k] = v] for a [dict]: an existing key keeps its position, a new
    key is appended. *)
Fixpoint dict_set {V} (k : string) (v : V) (d : list (string * V))
  : list (string * V) :=
  match d with
  | [] => [(k, v)]
  | (k', v') :: d' =>
      if String.eqb k k' then (k', v) :: d' else (k', v') :: dict_set k v d'
  end.

(** ** Python [str.split(sep)] for a one-character separator *)

Fixpoint split (c : ascii) (s : string) : list string :=
  match s with
  | EmptyString => [EmptyString]
  | String x s' =>
      let parts := split c s' in
      if Ascii.eqb x c then EmptyString :: parts
      else match parts with
           | p :: ps => String x p :: ps
           | [] => [String x EmptyString]
           end
  end.

Definition dot : ascii := ".".
Definition dash : ascii := "-".

(** ** Outcomes of a computation: a value, [sys.exit(msg)], or an
    exception that escapes to the interpreter. *)

(** The messages passed to [sys.exit], one constructor per call site. *)
Inductive exit_msg : Type :=
| MsgRequestType      (* 'Unsupported request type of %s being used. ...' *)
| MsgApiKeyFormat     (* 'Your API key appears to be in the incorrect format. ...' *)
| MsgApiKeyUid        (* 'Your API key UID component (part before "-") ...' *)
| MsgApiKeyToken      (* 'Your API key token component (part after "-") ...' *)
| MsgFileCheck (s : string)  (* exits of __validateFileAndDirectoryPermissions *)
| MsgTemplate (s : string)   (* exits of __validateJsonTemplate *)
| MsgCsvEmpty         (* 'There is an empty header or value in the input CSV file ...' *)
| MsgCsvDepth         (* 'Maximum depth of dot notation is 2. You have a value with a depth ...' *)
| MsgOverrideDepth    (* 'Maximum depth of dot notation 2. Please check your input CSV.' *)
| MsgHttp400 | MsgHttp401 | MsgHttp403 | MsgHttp500
| MsgHttpUnknown      (* 'An unknown HTTP error has occured. ...' *)
| MsgSsl              (* 'SSL error occurred. ...' *)
| MsgCompleted.       (* 'Process completed. Please check your output folder ...' *)

(** Python exceptions that nothing in the file catches. *)
Inductive py_exn : Type :=
| KeyError            (* d[k] on a missing key *)
| TypeError           (* item assignment on a value that is not a dict *)
| TransportError.     (* a requests exception other than SSLError *)

Inductive outcome (A : Type) : Type :=
| Ok (a : A)
| Exit (m : exit_msg)
| Raise (e : py_exn).
Arguments Ok {A} a.
Arguments Exit {A} m.
Arguments Raise {A} e.

Definition obind {A B} (o : outcome A) (k : A -> outcome B) : outcome B :=
  match o with
  | Ok a => k a
  | Exit m => Exit m
  | Raise e => Raise e
  end.

(** ** [__customiseJsonFromCsvRow] *)

(** A CSV row after validation: header (a dot-notation key) and value. *)
Definition csv_row := list (string * string).

(** One iteration of the [for key, value in csvRowDictionary.items()] loop. *)
Definition apply_override (t : jobj) (kv : string * string) : outcome jobj :=
  let (key, value) := kv in
  match split dot key with
  | [p0; p1] =>
      (* templateJson[parts[0]][parts[1]] = value *)
      match dict_get p0 t with
      | None => Raise KeyError
      | Some (JObj o) => Ok (dict_set p0 (JObj (dict_set p1 (JStr value) o)) t)
      | Some _ => Raise TypeError
      end
  | [_] => Ok (dict_set key (JStr value) t)   (* templateJson[key] = value *)
  | _ => Exit MsgOverrideDepth
  end.

(** The whole method.  The template is updated in place and the same
    object is returned, so the result is also the new template. *)
Fixpoint customiseJsonFromCsvRow (t : jobj) (row : csv_row) : outcome jobj :=
  match row with
  | [] => Ok t
  | kv :: row' => obind (apply_override t kv) (fun t' => customiseJsonFromCsvRow t' row')
  end.

(** ** [__validateApiKey] *)

Definition is_digit (c : ascii) : bool :=
  let n := nat_of_ascii c in (48 <=? n)%nat && (n <=? 57)%nat.

(** [str.isnumeric] on ASCII text: non-empty and every character a digit
    (the API key is taken to be ASCII, so [len] counts bytes). *)
Definition isnumeric (s : string) : bool :=
  match s with
  | EmptyString => false
  | _ => forallb is_digit (list_ascii_of_string s)
  end.

Definition validateApiKey (api_key : string) : outcome unit :=
  let parts := split dash api_key in
  if negb (length parts =? 2)%nat then Exit MsgApiKeyFormat
  else if negb (isnumeric (nth 0 parts "")) then Exit MsgApiKeyUid
  else if negb (String.length (nth 1 parts "") =? 40)%nat then Exit MsgApiKeyToken
  else Ok tt.

(** ** [__validateRequestType] *)

Definition allowedRequestTypes : list string := ["area"].

(** [self.requestType] is [None] or a string; [None] and [''] are falsy. *)
Definition validateRequestType (rt : option string) : outcome unit :=
  match rt with
  | Some s =>
      if negb (String.eqb s "") && existsb (String.eqb s) allowedRequestTypes
      then Ok tt else Exit MsgRequestType
  | None => Exit MsgRequestType
  end.

(** ** [csv.DictReader] and [__validateCsv] *)

(** The records [csv.reader] yields for the input file. *)
Definition csv_records := list (list string).

(** An item of a [DictReader] row dict: a header with its value, or the
    value [None] ([restval]) when the record is shorter than the header;
    [Rest vs] is the [None] key ([restkey]) holding the extra fields of a
    record longer than the header. *)
Inductive entry : Type :=
| Field (k : string) (v : option string)
| Rest (vs : list string).

Definition pyrow := list entry.

(** [d[k] = v] on a row dict. *)
Fixpoint set_field (k : string) (v : option string) (d : pyrow) : pyrow :=
  match d with
  | [] => [Field k v]
  | Field k' v' :: d' =>
      if String.eqb k k' then Field k' v :: d' else Field k' v' :: set_field k v d'
  | Rest vs :: d' => Rest vs :: set_field k v d'
  end.

(** [DictReader.__next__] for one non-blank record. *)
Definition dict_row (fieldnames row : list string) : pyrow :=
  let d := fold_left (fun d kv => set_field (fst kv) (Some (snd kv)) d)
                     (combine fieldnames row) [] in
  let lf := length fieldnames in
  let lr := length row in
  if (lf <? lr)%nat then d ++ [Rest (skipn lf row)]
  else if (lr <? lf)%nat then fold_left (fun d k => set_field k None d) (skipn lr fieldnames) d
  else d.

Definition is_blank (r : list string) : bool :=
  match r with [] => true | _ => false end.

(** The rows of [csv.DictReader]: the first record is the header, blank
    records are skipped. *)
Definition DictReader (recs : csv_records) : list pyrow :=
  match recs with
  | [] => []
  | hdr :: body => map (dict_row hdr) (filter (fun r => negb (is_blank r)) body)
  end.

(** One iteration of [for key, value in row.items()] in [__validateCsv];
    the pair is kept for the returned row. *)
Definition check_entry (e : entry) : outcome (string * string) :=
  match e with
  | Field k (Some v) =>
      if String.eqb k "" || String.eqb v "" then Exit MsgCsvEmpty
      else if (2 <? length (split dot k))%nat then Exit MsgCsvDepth
      else Ok (k, v)
  | Field _ None => Exit MsgCsvEmpty   (* not value *)
  | Rest _ => Exit MsgCsvEmpty         (* not key: the key is None *)
  end.

Fixpoint omap {A B} (f : A -> outcome B) (l : list A) : outcome (list B) :=
  match l with
  | [] => Ok []
  | x :: l' => obind (f x) (fun y => obind (omap f l') (fun ys => Ok (y :: ys)))
  end.

Definition validate_row (r : pyrow) : outcome csv_row := omap check_entry r.

(** [__validateCsv]: [None] when no CSV was given (the method falls off
    its end), else the validated rows in file order. *)
Definition validateCsv (input_csv : option csv_records)
  : outcome (option (list csv_row)) :=
  match input_csv with
  | None => Ok None
  | Some recs => obind (omap validate_row (DictReader recs)) (fun rows => Ok (Some rows))
  end.

(** ** The process: output events threaded with a state/exit monad *)

Inductive event : Type :=
| ESend (url : string) (key : string) (body : jobj)  (* requests.post(...) *)
| EPrintHttpError (code : Z)  (* 'An HTTP %d error occurred with your request. ...' *)
| EPrintRaw (text : string).  (* print(httpRawResponse) / print(response.text) *)

Definition M (A : Type) := list event -> list event * outcome A.

Definition ret {A} (a : A) : M A := fun tr => (tr, Ok a).
Definition bind {A B} (m : M A) (k : A -> M B) : M B :=
  fun tr => let (tr', o) := m tr in
            match o with
            | Ok a => k a tr'
            | Exit e => (tr', Exit e)
            | Raise e => (tr', Raise e)
            end.
Definition lift {A} (o : outcome A) : M A := fun tr => (tr, o).
Definition emit (e : event) : M unit := fun tr => (tr ++ [e], Ok tt).
Definition exit {A} (m : exit_msg) : M A := lift (Exit m).

Notation "x <- m ;; k" := (bind m (fun x => k)) (at level 61, m at next level, right associativity).
Notation "m ;;; k" := (bind m (fun _ => k)) (at level 61, right associativity).

(** What [requests.post] gives back. *)
Inductive net_result : Type :=
| Resp (status_code : Z) (text : string)
| SslErr   (* requests.exceptions.SSLError *)
| NetErr.  (* any other requests exception *)

(** The parsed arguments and the outside world, after [parse_args]. *)
Record env : Type := mkEnv {
  requestType : option string;
  api_key : string;
  base_url : string;
  input_csv : option csv_records;  (* None when --input-csv is not given *)
  verbose : bool;
  (* __validateFileAndDirectoryPermissions: None when it passes *)
  file_checks : option string;
  (* __validateJsonTemplate: json.load of the template, or its exit message *)
  template_file : jobj + string;
  (* the server's answer to the n-th request with a given body *)
  server : nat -> jobj -> net_result
}.

Definition http_msg (code : Z) : exit_msg :=
  if Z.eqb code 400 then MsgHttp400
  else if Z.eqb code 401 then MsgHttp401
  else if Z.eqb code 403 then MsgHttp403
  else if Z.eqb code 500 then MsgHttp500
  else MsgHttpUnknown.

Definition checkHttpResponse (code : Z) (raw : string) : M unit :=
  if negb (Z.eqb code 200) then
    emit (EPrintHttpError code) ;;; emit (EPrintRaw raw) ;;; exit (http_msg code)
  else ret tt.

Fixpoint drop_slashes (l : list ascii) : list ascii :=
  match l with
  | c :: l' => if Ascii.eqb c "/" then drop_slashes l' else l
  | [] => []
  end.

(** [str(s).rstrip('/')] *)
Definition rstrip_slash (s : string) : string :=
  string_of_list_ascii (rev (drop_slashes (rev (list_ascii_of_string s)))).

Definition rt_string (rt : option string) : string :=
  match rt with Some s => s | None => "None" end.

(** [str(base_url).rstrip('/') + '/' + self.requestType] *)
Definition request_url (E : env) : string :=
  rstrip_slash (base_url E) ++ "/" ++ rt_string (requestType E).

(** [__calculate] for the [n]-th request (the timestamped request name only
    names output files and is not modelled). *)
Definition calculate (E : env) (n : nat) (jsonData : jobj) : M unit :=
  emit (ESend (request_url E) (api_key E) jsonData) ;;;
  match server E n jsonData with
  | Resp code text =>
      checkHttpResponse code text ;;;
      (if verbose E then emit (EPrintRaw text) else ret tt)
  | SslErr => exit MsgSsl
  | NetErr => lift (Raise TransportError)
  end.

(** The loop of [__init__] over the CSV rows.  [customiseJsonFromCsvRow]
    mutates [self.__jsonTemplate] and returns that same object, so one
    value threads through the loop as both the template and the request
    body of the row. *)
Fixpoint run_rows (E : env) (n : nat) (template : jobj) (rows : list csv_row) : M unit :=
  match rows with
  | [] => ret tt
  | row :: rows' =>
      newJsonData <- lift (customiseJsonFromCsvRow template row) ;;
      calculate E n newJsonData ;;;
      run_rows E (S n) newJsonData rows'
  end.

Definition file_step (o : option string) : M unit :=
  match o with None => ret tt | Some s => exit (MsgFileCheck s) end.

Definition template_step (o : jobj + string) : M jobj :=
  match o with inl t => ret t | inr s => exit (MsgTemplate s) end.

(** [CloudRF.__init__] after argument parsing. *)
Definition init (E : env) : M unit :=
  lift (validateRequestType (requestType E)) ;;;
  lift (validateApiKey (api_key E)) ;;;
  file_step (file_checks E) ;;;
  jsonTemplate <- template_step (template_file E) ;;
  csvInputList <- lift (validateCsv (input_csv E)) ;;
  (match input_csv E, csvInputList with
   | Some _, Some ((_ :: _) as rows) => run_rows E 0 jsonTemplate rows
   | _, _ => calculate E 0 jsonTemplate
   end) ;;;
  exit MsgCompleted.

Definition run (E : env) : list event * outcome unit := init E [].

Definition sends (tr : list event) : list jobj :=
  flat_map (fun e => match e with ESend _ _ b => [b] | _ => [] end) tr.

(** ** The request name of [__calculate] *)

(** The fields of [datetime.datetime.now()]. *)
Record datetime : Type := mkDatetime {
  dt_year : nat; dt_month : nat; dt_day : nat;
  dt_hour : nat; dt_minute : nat; dt_second : nat; dt_microsecond : nat
}.

Definition digit (d : nat) : ascii := ascii_of_nat (48 + d)%nat.

(** The last [w] decimal digits of [n], zero-padded ([%02d] and the like). *)
Fixpoint pad (w n : nat) : list ascii :=
  match w with
  | O => []
  | S w' => pad w' (n / 10)%nat ++ [digit (n mod 10)%nat]
  end.

Fixpoint dec_aux (fuel n : nat) : list ascii :=
  match fuel with
  | O => []
  | S f => if (n <? 10)%nat then [digit n] else dec_aux f (n / 10)%nat ++ [digit (n mod 10)%nat]
  end.

(** [%Y]: glibc prints years below 1000 without padding. *)
Definition strftime_Y (y : nat) : list ascii :=
  if (1000 <=? y)%nat then pad 4 y else dec_aux (S y) y.

(** [now.strftime('%Y%m%d%H%M%S_' + now.strftime('%f')[:3])]: the three
    digits taken from [%f] are literal text in the outer format. *)
Definition requestName (now : datetime) : string :=
  string_of_list_ascii
    (strftime_Y (dt_year now) ++ pad 2 (dt_month now) ++ pad 2 (dt_day now) ++
     pad 2 (dt_hour now) ++ pad 2 (dt_minute now) ++ pad 2 (dt_second now) ++
     ["_"%char] ++ firstn 3 (pad 6 (dt_microsecond now))).

(** ** Definitions used to state properties *)

(** The root-level template key an override key writes to. *)
Definition override_root (key : string) : string := hd "" (split dot key).

(** An item [__validateCsv] rejects as empty: a missing or empty header
    or value. *)
Definition entry_empty (e : entry) : bool :=
  match e with
  | Field k (Some v) => String.eqb k "" || String.eqb v ""
  | Field _ None => true
  | Rest _ => true
  end.

Definition entry_deep (e : entry) : bool :=
  match e with
  | Field k _ => (2 <? length (split dot k))%nat
  | Rest _ => false
  end.

Definition entry_pair (e : entry) : string * string :=
  match e with
  | Field k (Some v) => (k, v)
  | Field k None => (k, "")
  | Rest _ => ("", "")
  end.

(** The loop of the claim: every row is applied to a fresh copy of the
    loaded template (stated from the specification's words, to be
    compared with [run_rows]). *)
Fixpoint run_rows_cloned (E : env) (n : nat) (template : jobj) (rows : list csv_row) : M unit :=
  match rows with
  | [] => ret tt
  | row :: rows' =>
      newJsonData <- lift (customiseJsonFromCsvRow template row) ;;
      calculate E n newJsonData ;;;
      run_rows_cloned E (S n) template rows'
  end.

(** ** Lemmas on the data model *)

Lemma dict_get_set_eq {V} (k : string) (v : V) (d : list (string * V)) :
  dict_get k (dict_set k v d) = Some v.
Proof.
  induction d as [|[k' v'] d IH]; simpl.
  - rewrite String.eqb_refl. reflexivity.
  - destruct (String.eqb k k') eqn:Hk; simpl.
    + rewrite Hk. reflexivity.
    + rewrite Hk. exact IH.
Qed.

Lemma dict_get_set_neq {V} (k k' : string) (v : V) (d : list (string * V)) :
  k' <> k -> dict_get k' (dict_set k v d) = dict_get k' d.
Proof.
  intros Hne. induction d as [|[k'' v''] d IH]; simpl.
  - destruct (String.eqb k' k) eqn:E; [apply String.eqb_eq in E; congruence | reflexivity].
  - destruct (String.eqb k k'') eqn:Hk; simpl.
    + apply String.eqb_eq in Hk. subst k''.
      destruct (String.eqb k' k) eqn:E; [apply String.eqb_eq in E; congruence | reflexivity].
    + rewrite IH. reflexivity.
Qed.

Lemma split_nonnil (c : ascii) (s : string) : split c s <> [].
Proof.
  destruct s as [|x s]; simpl; [discriminate|].
  destruct (Ascii.eqb x c); [discriminate|].
  destruct (split c s); discriminate.
Qed.

Lemma split_single (c : ascii) (s p : string) : split c s = [p] -> p = s.
Proof.
  revert p. induction s as [|x s IH]; simpl; intros p H.
  - injection H as <-. reflexivity.
  - destruct (Ascii.eqb x c).
    + injection H as _ H. exfalso. exact (split_nonnil c s H).
    + destruct (split c s) as [|p' ps] eqn:Hs; [exfalso; exact (split_nonnil c s Hs)|].
      injection H as <- ->. rewrite (IH p' eq_refl). reflexivity.
Qed.

(** The root-level key an override writes is [override_root key]; every
    other root key is left as it was. *)
Lemma apply_override_frame (t t' : jobj) (kv : string * string) (k : string) :
  apply_override t kv = Ok t' -> k <> override_root (fst kv) ->
  dict_get k t' = dict_get k t.
Proof.
  destruct kv as [key value]. unfold apply_override, override_root; simpl.
  intros H Hne.
  destruct (split dot key) as [|p0 [|p1 [|p2 ps]]] eqn:Hs; try discriminate.
  - injection H as <-. apply split_single in Hs. subst p0.
    apply dict_get_set_neq. exact Hne.
  - simpl in Hne. destruct (dict_get p0 t) as [[]|]; try discriminate.
    injection H as <-. apply dict_get_set_neq. exact Hne.
Qed.

Lemma customise_frame (t t' : jobj) (row : csv_row) (k : string) :
  customiseJsonFromCsvRow t row = Ok t' ->
  ~ In k (map (fun kv => override_root (fst kv)) row) ->
  dict_get k t' = dict_get k t.
Proof.
  revert t. induction row as [|kv row IH]; simpl; intros t H Hin.
  - injection H as <-. reflexivity.
  - destruct (apply_override t kv) as [t1| |] eqn:Ha; simpl in H; try discriminate.
    rewrite (IH t1 H (fun h => Hin (or_intror h))).
    apply (apply_override_frame t t1 kv k Ha). intros ->. apply Hin. left. reflexivity.
Qed.

(** ** Lemmas on the request loop *)

Lemma sends_app (tr1 tr2 : list event) : sends (tr1 ++ tr2) = sends tr1 ++ sends tr2.
Proof. unfold sends. apply flat_map_app. Qed.

Lemma calculate_sends (E : env) (n : nat) (b : jobj) (tr : list event) :
  sends (fst (calculate E n b tr)) = sends tr ++ [b].
Proof.
  unfold calculate, bind, emit, lift, exit, ret; simpl.
  destruct (server E n b) as [code text| |]; simpl;
    try (rewrite sends_app; reflexivity).
  unfold checkHttpResponse, bind, emit, exit, lift, ret.
  destruct (negb (code =? 200)%Z); simpl;
    [|destruct (verbose E); simpl]; rewrite ?sends_app; simpl; rewrite ?app_nil_r;
    rewrite ?sends_app; simpl; rewrite ?app_nil_r; reflexivity.
Qed.

Lemma calculate_200 (E : env) (n : nat) (b : jobj) (text : string) (tr : list event) :
  server E n b = Resp 200 text ->
  calculate E n b tr =
  (tr ++ ESend (request_url E) (api_key E) b :: (if verbose E then [EPrintRaw text] else []),
   Ok tt).
Proof.
  intros Hs. unfold calculate, bind, emit, lift, ret; simpl. rewrite Hs.
  unfold checkHttpResponse; simpl. unfold ret, emit.
  destruct (verbose E); rewrite <- ?app_assoc; reflexivity.
Qed.

Lemma calculate_non200 (E : env) (n : nat) (b : jobj) (code : Z) (text : string)
      (tr : list event) :
  server E n b = Resp code text -> code <> 200%Z ->
  calculate E n b tr =
  (tr ++ [ESend (request_url E) (api_key E) b; EPrintHttpError code; EPrintRaw text],
   Exit (http_msg code)).
Proof.
  intros Hs Hc. unfold calculate, bind, emit, lift, ret; simpl. rewrite Hs.
  unfold checkHttpResponse. apply Z.eqb_neq in Hc. rewrite Hc; simpl.
  unfold bind, emit, exit, lift; simpl. rewrite <- !app_assoc. reflexivity.
Qed.

Lemma omap_exit {A B} (f : A -> outcome B) (l : list A) (m : exit_msg) :
  omap f l = Exit m ->
  exists pre x post, l = pre ++ x :: post /\
    (forall y, In y pre -> exists z, f y = Ok z) /\ f x = Exit m.
Proof.
  induction l as [|a l IH]; simpl; intros H; [discriminate|].
  destruct (f a) as [z|m'|e] eqn:Hf; simpl in H.
  - destruct (omap f l) as [zs|m'|e] eqn:Hl; simpl in H; try discriminate.
    injection H as ->. destruct (IH eq_refl) as (pre & x & post & -> & Hpre & Hx).
    exists (a :: pre), x, post. split; [reflexivity|]. split; [|exact Hx].
    intros y [<-|Hy]; [exists z; exact Hf | exact (Hpre y Hy)].
  - injection H as ->. exists [], a, l. split; [reflexivity|].
    split; [intros y []|exact Hf].
  - discriminate.
Qed.

Lemma omap_raise {A B} (f : A -> outcome B) (l : list A) (e : py_exn) :
  (forall x e', f x <> Raise e') -> omap f l <> Raise e.
Proof.
  intros Hf. induction l as [|a l IH]; simpl; [discriminate|].
  destruct (f a) as [z|m|e'] eqn:Ha; simpl; try discriminate.
  - destruct (omap f l) eqn:Hl; simpl; try discriminate. exact IH.
  - exfalso. exact (Hf a e' Ha).
Qed.

Lemma omap_all_ok {A B} (f : A -> outcome B) (g : A -> B) (l : list A) :
  (forall x, In x l -> f x = Ok (g x)) -> omap f l = Ok (map g l).
Proof.
  induction l as [|a l IH]; simpl; intros H; [reflexivity|].
  rewrite (H a (or_introl eq_refl)); simpl.
  rewrite IH by (intros x Hx; exact (H x (or_intror Hx))). reflexivity.
Qed.

(** ** Override merging *)

(** C2: a one-segment key sets the root field [key]; a two-segment key
    [a.b] whose parent [template[a]] is a dict sets [template[a][b]];
    a key of more than two segments exits with the nesting-depth message
    whatever the value. *)
Theorem apply_override_by_depth (t : jobj) (key value : string) :
  (length (split dot key) = 1%nat ->
     exists t', apply_override t (key, value) = Ok t' /\
       dict_get key t' = Some (JStr value) /\
       (forall k, k <> key -> dict_get k t' = dict_get k t)) /\
  (forall a b o, split dot key = [a; b] -> dict_get a t = Some (JObj o) ->
     exists o', apply_override t (key, value) = Ok (dict_set a (JObj o') t) /\
       dict_get a (dict_set a (JObj o') t) = Some (JObj o') /\
       dict_get b o' = Some (JStr value) /\
       (forall b', b' <> b -> dict_get b' o' = dict_get b' o) /\
       (forall k, k <> a -> dict_get k (dict_set a (JObj o') t) = dict_get k t)) /\
  (2 < length (split dot key) -> forall value',
     apply_override t (key, value') = Exit MsgOverrideDepth)%nat.
Proof.
  split; [|split].
  - intros Hl. unfold apply_override.
    destruct (split dot key) as [|p [|p1 ps]] eqn:Hs; simpl in Hl; try discriminate.
    eexists. split; [reflexivity|]. split.
    + apply dict_get_set_eq.
    + intros k Hk. apply dict_get_set_neq. exact Hk.
  - intros a b o Hs Ha. unfold apply_override. rewrite Hs, Ha.
    exists (dict_set b (JStr value) o). split; [reflexivity|].
    split; [apply dict_get_set_eq|]. split; [apply dict_get_set_eq|]. split.
    + intros b' Hb. apply dict_get_set_neq. exact Hb.
    + intros k Hk. apply dict_get_set_neq. exact Hk.
  - intros Hl value'. unfold apply_override.
    destruct (split dot key) as [|p0 [|p1 [|p2 ps]]]; simpl in Hl; try lia.
    reflexivity.
Qed.

Lemma apply_override_by_depth_witness :
  (exists t', apply_override [] ("power", "10") = Ok t' /\
     dict_get "power" t' = Some (JStr "10") /\
     (forall k, k <> "power" -> dict_get k t' = dict_get k [])) /\
  (exists o', apply_override [("antenna", JObj [])] ("antenna.txg", "2") =
     Ok (dict_set "antenna" (JObj o') [("antenna", JObj [])]) /\
     dict_get "antenna" (dict_set "antenna" (JObj o') [("antenna", JObj [])]) = Some (JObj o') /\
     dict_get "txg" o' = Some (JStr "2") /\
     (forall b', b' <> "txg" -> dict_get b' o' = dict_get b' []) /\
     (forall k, k <> "antenna" -> dict_get k (dict_set "antenna" (JObj o') [("antenna", JObj [])])
                                  = dict_get k [("antenna", JObj [])])) /\
  apply_override [] ("a.b.c", "1") = Exit MsgOverrideDepth.
Proof.
  split; [|split].
  - apply (proj1 (apply_override_by_depth [] "power" "10")). reflexivity.
  - apply (proj1 (proj2 (apply_override_by_depth [("antenna", JObj [])] "antenna.txg" "2"))
             "antenna" "txg" []); reflexivity.
  - apply (proj2 (proj2 (apply_override_by_depth [] "a.b.c" "0"))); simpl; lia.
Defined.

(** C3 (as stated, refuted): a two-segment key whose parent is missing
    or is not a dict does not exit with a classified message: the
    assignment raises an uncaught [KeyError] or [TypeError]. *)
Lemma override_path_unclassified_cex :
  apply_override [] ("transmitter.lat", "5.5") = Raise KeyError /\
  apply_override [("transmitter", JStr "x")] ("transmitter.lat", "5.5") = Raise TypeError /\
  customiseJsonFromCsvRow [("transmitter", JNum 1)] [("transmitter.lat", "5.5")] = Raise TypeError.
Proof. repeat split; reflexivity. Qed.

(** C3 (amended): for a two-segment key [a.b] the override sets
    [template[a][b]] when [template[a]] is a dict; it raises an uncaught
    [KeyError] when [a] is absent and an uncaught [TypeError] when
    [template[a]] is any other JSON value; it never ends in a classified
    [sys.exit], and the row's merge fails with the same exception. *)
Theorem apply_override_nested_failures (t : jobj) (key value a b : string) (row : csv_row) :
  split dot key = [a; b] ->
  (forall o, dict_get a t = Some (JObj o) ->
     apply_override t (key, value) = Ok (dict_set a (JObj (dict_set b (JStr value) o)) t)) /\
  (dict_get a t = None ->
     apply_override t (key, value) = Raise KeyError /\
     customiseJsonFromCsvRow t ((key, value) :: row) = Raise KeyError) /\
  (forall j, dict_get a t = Some j -> (forall o, j <> JObj o) ->
     apply_override t (key, value) = Raise TypeError /\
     customiseJsonFromCsvRow t ((key, value) :: row) = Raise TypeError) /\
  (forall m, apply_override t (key, value) <> Exit m).
Proof.
  intros Hs. unfold apply_override. rewrite Hs. split; [|split; [|split]].
  - intros o Ho. rewrite Ho. reflexivity.
  - intros Ha. simpl. unfold apply_override. rewrite Hs, Ha. split; reflexivity.
  - intros j Ha Hj. simpl. unfold apply_override. rewrite Hs, Ha.
    destruct j; try (split; reflexivity). exfalso. exact (Hj o eq_refl).
  - intros m. destruct (dict_get a t) as [[]|]; discriminate.
Qed.

Lemma apply_override_nested_failures_witness :
  apply_override [] ("transmitter.lat", "5.5") = Raise KeyError /\
  customiseJsonFromCsvRow [] [("transmitter.lat", "5.5")] = Raise KeyError.
Proof.
  apply (proj1 (proj2 (apply_override_nested_failures [] "transmitter.lat" "5.5"
                         "transmitter" "lat" [] eq_refl))).
  reflexivity.
Defined.

(** ** API key *)

(** C4: [validateApiKey] accepts exactly the keys that split on ['-']
    into two parts, the first numeric, the second of 40 characters; every
    other key exits with one of its three key-format messages.  The
    specification's three sample keys behave as stated. *)
Theorem validateApiKey_spec (key : string) :
  (validateApiKey key = Ok tt <->
     length (split dash key) = 2%nat /\
     isnumeric (nth 0 (split dash key) "") = true /\
     String.length (nth 1 (split dash key) "") = 40%nat) /\
  (validateApiKey key = Ok tt \/
     exists m, validateApiKey key = Exit m /\
               In m [MsgApiKeyFormat; MsgApiKeyUid; MsgApiKeyToken]) /\
  validateApiKey "12345-abcdefabcdefabcdefabcdefabcdefabcdefabcd" = Ok tt /\
  validateApiKey "12345-short" = Exit MsgApiKeyToken /\
  validateApiKey "abc-abcdefabcdefabcdefabcdefabcdefabcdefabcd" = Exit MsgApiKeyUid.
Proof.
  split; [|split; [|repeat split; reflexivity]].
  - unfold validateApiKey.
    destruct (length (split dash key) =? 2)%nat eqn:H1;
    destruct (isnumeric (nth 0 (split dash key) "")) eqn:H2;
    destruct (String.length (nth 1 (split dash key) "") =? 40)%nat eqn:H3;
    simpl; rewrite ?Nat.eqb_eq, ?Nat.eqb_neq in *;
    split; intros H; try discriminate; try (repeat split; assumption);
    destruct H as (? & ? & ?); try congruence.
  - unfold validateApiKey.
    destruct (negb (length (split dash key) =? 2)%nat);
    [right; eexists; split; [reflexivity| simpl; tauto]|].
    destruct (negb (isnumeric (nth 0 (split dash key) "")));
    [right; eexists; split; [reflexivity| simpl; tauto]|].
    destruct (negb (String.length (nth 1 (split dash key) "") =? 40)%nat);
    [right; eexists; split; [reflexivity| simpl; tauto]|].
    left. reflexivity.
Qed.

(** ** Request type *)

(** C7: a request type other than ["area"], [None] included, makes the
    run exit with the unsupported-request-type message with nothing
    sent or printed; ["area"] passes the check. *)
Theorem unsupported_request_type_no_network (E : env) :
  (requestType E <> Some "area" -> run E = ([], Exit MsgRequestType)) /\
  validateRequestType (Some "area") = Ok tt.
Proof.
  split; [|reflexivity].
  intros Hrt. unfold run, init, bind, lift; simpl.
  destruct (requestType E) as [s|]; [|reflexivity].
  unfold validateRequestType, allowedRequestTypes; simpl.
  destruct (String.eqb s "area") eqn:Hs.
  - apply String.eqb_eq in Hs. subst s. congruence.
  - rewrite andb_false_r. reflexivity.
Qed.

(** A run with a request type other than ["area"]. *)
Definition elevation_env : env :=
  mkEnv (Some "elevation") "12345-abcdefabcdefabcdefabcdefabcdefabcdefabcd"
        "https://api.cloudrf.com/" None false None (inl [])
        (fun _ _ => Resp 200 "{}").

Lemma unsupported_request_type_no_network_witness :
  run elevation_env = ([], Exit MsgRequestType).
Proof.
  apply (proj1 (unsupported_request_type_no_network elevation_env)).
  simpl. discriminate.
Defined.

(** ** HTTP responses *)

(** C5: status 200 is silent and lets the loop go on to the next row with
    the next request; any other status prints the status line and the raw
    body, then exits with its status's message, and the rows after it are
    never processed whatever they are. *)
Theorem http_response_batch (E : env) (n : nat) (t b : jobj) (row : csv_row)
        (rows : list csv_row) (tr : list event) :
  customiseJsonFromCsvRow t row = Ok b ->
  checkHttpResponse 200 "" tr = (tr, Ok tt) /\
  (forall code raw, code <> 200%Z ->
     checkHttpResponse code raw tr =
     (tr ++ [EPrintHttpError code; EPrintRaw raw], Exit (http_msg code)) /\
     http_msg code <> MsgCompleted) /\
  (forall text, server E n b = Resp 200 text ->
     run_rows E n t (row :: rows) tr =
     run_rows E (S n) b rows
       (tr ++ ESend (request_url E) (api_key E) b ::
                (if verbose E then [EPrintRaw text] else []))) /\
  (forall code text, server E n b = Resp code text -> code <> 200%Z ->
     run_rows E n t (row :: rows) tr =
     (tr ++ [ESend (request_url E) (api_key E) b; EPrintHttpError code; EPrintRaw text],
      Exit (http_msg code))).
Proof.
  intros Hc. split; [reflexivity|]. split; [|split].
  - intros code raw Hcode. split.
    + unfold checkHttpResponse. apply Z.eqb_neq in Hcode. rewrite Hcode; simpl.
      unfold bind, emit, exit, lift; simpl. rewrite <- app_assoc. reflexivity.
    + unfold http_msg.
      destruct (code =? 400)%Z, (code =? 401)%Z, (code =? 403)%Z, (code =? 500)%Z;
        discriminate.
  - intros text Hs. simpl. unfold bind at 1, lift. rewrite Hc.
    unfold bind at 1. rewrite (calculate_200 E n b text tr Hs). reflexivity.
  - intros code text Hs Hcode. simpl. unfold bind at 1, lift. rewrite Hc.
    unfold bind at 1. rewrite (calculate_non200 E n b code text tr Hs Hcode).
    reflexivity.
Qed.

(** Every request answered with 401. *)
Definition unauthorised_env : env :=
  mkEnv (Some "area") "12345-abcdefabcdefabcdefabcdefabcdefabcdefabcd"
        "https://api.cloudrf.com/" None false None (inl [])
        (fun _ _ => Resp 401 "Unauthorised").

Lemma http_response_batch_witness :
  run_rows unauthorised_env 0 [] [[("power", "1")]; [("power", "2")]] [] =
  ([ESend "https://api.cloudrf.com/area" "12345-abcdefabcdefabcdefabcdefabcdefabcdefabcd"
          [("power", JStr "1")];
    EPrintHttpError 401; EPrintRaw "Unauthorised"], Exit MsgHttp401).
Proof.
  apply (proj2 (proj2 (proj2 (http_response_batch unauthorised_env 0 [] [("power", JStr "1")]
           [("power", "1")] [[("power", "2")]] [] eq_refl))) 401%Z "Unauthorised");
  [reflexivity | discriminate].
Defined.

(** ** Runs that send the template alone *)

Lemma DictReader_blank (hdr : list string) (blanks : csv_records) :
  Forall (fun r => r = []) blanks -> DictReader (hdr :: blanks) = [].
Proof.
  intros H. simpl. induction H as [|r blanks Hr H IH]; [reflexivity|].
  subst r. exact IH.
Qed.

(** When the checks before the CSV pass and there is no CSV row to
    apply, the run sends the loaded template once, unchanged. *)
Lemma run_single_request (E : env) (t : jobj) :
  validateRequestType (requestType E) = Ok tt ->
  validateApiKey (api_key E) = Ok tt ->
  file_checks E = None ->
  template_file E = inl t ->
  (validateCsv (input_csv E) = Ok None \/ validateCsv (input_csv E) = Ok (Some [])) ->
  sends (fst (run E)) = [t].
Proof.
  intros H1 H2 H3 H4 H5. unfold run, init.
  unfold bind at 1, lift at 1. rewrite H1.
  unfold bind at 1, lift at 1. rewrite H2.
  unfold bind at 1, file_step. rewrite H3. unfold ret at 1.
  unfold bind at 1, template_step. rewrite H4. unfold ret at 1.
  unfold bind at 1, lift at 1.
  destruct H5 as [H5|H5]; rewrite H5; unfold bind at 1;
    destruct (input_csv E);
    destruct (calculate E 0 t []) as [tr o] eqn:Hcal;
    pose proof (calculate_sends E 0 t []) as Hs; rewrite Hcal in Hs; simpl in Hs;
    destruct o; exact Hs.
Qed.

(** ** Merge example and round trip *)

Definition transmitter_template : jobj :=
  [("transmitter", JObj [("lat", JNum 1); ("lon", JNum 2)])].

(** Answers every request with 200. *)
Definition ok_env (csv : option csv_records) (t : jobj) : env :=
  mkEnv (Some "area") "12345-abcdefabcdefabcdefabcdefabcdefabcdefabcd"
        "https://api.cloudrf.com/" csv false None (inl t)
        (fun _ _ => Resp 200 "{}").

(** C8: with the template [{"transmitter":{"lat":1.0,"lon":2.0}}] and the
    CSV row [transmitter.lat = "5.5"], the request body has the string
    ["5.5"] at [transmitter.lat] and [transmitter.lon] still [2.0]; this is
    also the one body a run with that CSV sends. *)
Theorem merge_example_raw_string :
  customiseJsonFromCsvRow transmitter_template [("transmitter.lat", "5.5")] =
    Ok [("transmitter", JObj [("lat", JStr "5.5"); ("lon", JNum 2)])] /\
  sends (fst (run (ok_env (Some [["transmitter.lat"]; ["5.5"]]) transmitter_template))) =
    [[("transmitter", JObj [("lat", JStr "5.5"); ("lon", JNum 2)])]].
Proof. split; vm_compute; reflexivity. Qed.

(** C9: merging no override returns the template unchanged, and a run
    without a CSV sends exactly the loaded template. *)
Theorem no_override_identity (E : env) (t : jobj) :
  validateRequestType (requestType E) = Ok tt ->
  validateApiKey (api_key E) = Ok tt ->
  file_checks E = None ->
  template_file E = inl t ->
  customiseJsonFromCsvRow t [] = Ok t /\
  (input_csv E = None -> sends (fst (run E)) = [t]).
Proof.
  intros H1 H2 H3 H4. split; [reflexivity|].
  intros Hcsv. apply run_single_request; try assumption.
  left. rewrite Hcsv. reflexivity.
Qed.

Lemma no_override_identity_witness :
  customiseJsonFromCsvRow transmitter_template [] = Ok transmitter_template /\
  (input_csv (ok_env None transmitter_template) = None ->
   sends (fst (run (ok_env None transmitter_template)))= [transmitter_template]).
Proof.
  apply (no_override_identity (ok_env None transmitter_template) transmitter_template);
    vm_compute; reflexivity.
Defined.

(** C10: a CSV with a header and no data row validates to the empty list
    and the run falls back to one request with the unchanged template. *)
Theorem header_only_csv_single_request (E : env) (t : jobj)
        (hdr : list string) (blanks : csv_records) :
  input_csv E = Some (hdr :: blanks) ->
  Forall (fun r => r = []) blanks ->
  validateRequestType (requestType E) = Ok tt ->
  validateApiKey (api_key E) = Ok tt ->
  file_checks E = None ->
  template_file E = inl t ->
  validateCsv (input_csv E) = Ok (Some []) /\ sends (fst (run E)) = [t].
Proof.
  intros Hcsv Hb H1 H2 H3 H4.
  assert (Hv : validateCsv (input_csv E) = Ok (Some [])).
  { rewrite Hcsv. unfold validateCsv. rewrite (DictReader_blank hdr blanks Hb). reflexivity. }
  split; [exact Hv|]. apply run_single_request; auto.
Qed.

Lemma header_only_csv_single_request_witness :
  validateCsv (input_csv (ok_env (Some [["transmitter.lat"]; []]) transmitter_template))
    = Ok (Some []) /\
  sends (fst (run (ok_env (Some [["transmitter.lat"]; []]) transmitter_template)))
    = [transmitter_template].
Proof.
  apply (header_only_csv_single_request (ok_env (Some [["transmitter.lat"]; []]) transmitter_template)
           transmitter_template ["transmitter.lat"] [[]]);
    try (vm_compute; reflexivity).
  repeat constructor.
Defined.

(** ** The template across CSV rows *)

Definition lat_template : jobj :=
  [("transmitter", JObj [("lat", JNum 1); ("lon", JNum 2)]); ("power", JNum 10)].

(** C1 (as stated, refuted): the template is not cloned per row.  With
    rows [transmitter.lat=5.5] then [power=20], the second body still
    carries the first row's latitude, where a fresh copy of the template
    would have [1.0]; and with the CSV header [transmitter.lat,transmitter]
    the second row fails on what the first row left in the template,
    where a fresh copy would have let it through. *)
Lemma template_mutated_across_rows_cex :
  sends (fst (run_rows (ok_env None lat_template) 0 lat_template
                [[("transmitter.lat", "5.5")]; [("power", "20")]] [])) =
    [[("transmitter", JObj [("lat", JStr "5.5"); ("lon", JNum 2)]); ("power", JNum 10)];
     [("transmitter", JObj [("lat", JStr "5.5"); ("lon", JNum 2)]); ("power", JStr "20")]] /\
  sends (fst (run_rows_cloned (ok_env None lat_template) 0 lat_template
                [[("transmitter.lat", "5.5")]; [("power", "20")]] [])) =
    [[("transmitter", JObj [("lat", JStr "5.5"); ("lon", JNum 2)]); ("power", JNum 10)];
     [("transmitter", JObj [("lat", JNum 1); ("lon", JNum 2)]); ("power", JStr "20")]] /\
  run (ok_env (Some [["transmitter.lat"; "transmitter"]; ["5.5"; "t1"]; ["6.5"; "t2"]])
              lat_template) =
    ([ESend "https://api.cloudrf.com/area" "12345-abcdefabcdefabcdefabcdefabcdefabcdefabcd"
            [("transmitter", JStr "t1"); ("power", JNum 10)]], Raise TypeError) /\
  sends (fst (run_rows_cloned (ok_env None lat_template) 0 lat_template
                [[("transmitter.lat", "5.5"); ("transmitter", "t1")];
                 [("transmitter.lat", "6.5"); ("transmitter", "t2")]] [])) =
    [[("transmitter", JStr "t1"); ("power", JNum 10)];
     [("transmitter", JStr "t2"); ("power", JNum 10)]].
Proof. repeat split; vm_compute; reflexivity. Qed.

(** C1 (amended): the loaded template is updated in place: after a row
    is merged and answered with 200, the next row is merged into that
    row's body, not into the template as loaded; every root-level key the
    next row does not target keeps the value the previous rows left. *)
Theorem rows_share_template (E : env) (n : nat) (t b1 : jobj) (r1 : csv_row)
        (rows : list csv_row) (text : string) (tr : list event) :
  customiseJsonFromCsvRow t r1 = Ok b1 ->
  server E n b1 = Resp 200 text ->
  run_rows E n t (r1 :: rows) tr =
    run_rows E (S n) b1 rows
      (tr ++ ESend (request_url E) (api_key E) b1 ::
               (if verbose E then [EPrintRaw text] else [])) /\
  (forall r2 b2 k, customiseJsonFromCsvRow b1 r2 = Ok b2 ->
     ~ In k (map (fun kv => override_root (fst kv)) r2) ->
     dict_get k b2 = dict_get k b1).
Proof.
  intros Hc Hs. split.
  - simpl. unfold bind at 1, lift. rewrite Hc.
    unfold bind at 1. rewrite (calculate_200 E n b1 text tr Hs). reflexivity.
  - intros r2 b2 k H2 Hk. exact (customise_frame b1 b2 r2 k H2 Hk).
Qed.

Lemma rows_share_template_witness :
  run_rows (ok_env None lat_template) 0 lat_template
    [[("transmitter.lat", "5.5")]; [("power", "20")]] [] =
  run_rows (ok_env None lat_template) 1
    [("transmitter", JObj [("lat", JStr "5.5"); ("lon", JNum 2)]); ("power", JNum 10)]
    [[("power", "20")]]
    ([] ++ [ESend "https://api.cloudrf.com/area" "12345-abcdefabcdefabcdefabcdefabcdefabcdefabcd"
             [("transmitter", JObj [("lat", JStr "5.5"); ("lon", JNum 2)]); ("power", JNum 10)]]).
Proof.
  apply (rows_share_template (ok_env None lat_template) 0 lat_template
           [("transmitter", JObj [("lat", JStr "5.5"); ("lon", JNum 2)]); ("power", JNum 10)]
           [("transmitter.lat", "5.5")] [[("power", "20")]] "{}" []);
    vm_compute; reflexivity.
Defined.

(** ** CSV validation *)

Lemma omap_ok_all {A B} (f : A -> outcome B) (l : list A) (zs : list B) :
  omap f l = Ok zs -> forall x, In x l -> exists z, f x = Ok z.
Proof.
  revert zs. induction l as [|a l IH]; simpl; intros zs H x Hx; [destruct Hx|].
  destruct (f a) as [z| |] eqn:Ha; simpl in H; try discriminate.
  destruct (omap f l) as [ys| |] eqn:Hl; simpl in H; try discriminate.
  destruct Hx as [<-|Hx]; [exists z; exact Ha | exact (IH ys eq_refl x Hx)].
Qed.

Lemma check_entry_ok (e : entry) (z : string * string) :
  check_entry e = Ok z -> entry_empty e = false /\ entry_deep e = false.
Proof.
  destruct e as [k [v|]|vs]; simpl; try discriminate.
  destruct (String.eqb k "" || String.eqb v ""); [discriminate|].
  destruct (2 <? length (split dot k))%nat; [discriminate|]. auto.
Qed.

Lemma check_entry_good (e : entry) :
  entry_empty e = false -> entry_deep e = false -> check_entry e = Ok (entry_pair e).
Proof.
  destruct e as [k [v|]|vs]; simpl; try discriminate.
  intros -> ->. reflexivity.
Qed.

Lemma check_entry_exit (e : entry) (m : exit_msg) :
  check_entry e = Exit m ->
  (entry_empty e = true /\ m = MsgCsvEmpty) \/
  (entry_empty e = false /\ entry_deep e = true /\ m = MsgCsvDepth).
Proof.
  destruct e as [k [v|]|vs]; simpl; intros H.
  - destruct (String.eqb k "" || String.eqb v ""); [injection H as <-; auto|].
    destruct (2 <? length (split dot k))%nat; [injection H as <-; auto|discriminate].
  - injection H as <-. auto.
  - injection H as <-. auto.
Qed.

Lemma omap_app_exit {A B} (f : A -> outcome B) (pre : list A) (x : A) (post : list A)
      (m : exit_msg) :
  (forall y, In y pre -> exists z, f y = Ok z) -> f x = Exit m ->
  omap f (pre ++ x :: post) = Exit m.
Proof.
  induction pre as [|a pre IH]; simpl; intros H Hx.
  - rewrite Hx. reflexivity.
  - destruct (H a (or_introl eq_refl)) as [z Hz]. rewrite Hz. simpl.
    rewrite IH; [reflexivity| |exact Hx].
    intros y Hy. apply H. right. exact Hy.
Qed.

Lemma check_entry_no_raise (e : entry) (ex : py_exn) : check_entry e <> Raise ex.
Proof.
  destruct e as [k [v|]|vs]; simpl; try discriminate.
  destruct (String.eqb k "" || String.eqb v ""); [discriminate|].
  destruct (2 <? length (split dot k))%nat; discriminate.
Qed.

(** The CSV used to refute C6. *)
Definition deep_header_csv : csv_records := [["a.b.c"; ""]].
Definition empty_then_deep_csv : csv_records := [["power"; "transmitter.lat.deg"]; [""; "5"]].

(** C6 (as stated, refuted): a header-only CSV whose header has an empty
    name and a three-segment name validates to the empty list, and a row
    whose first value is empty fails with the empty-field message although
    a later header is three segments deep. *)
Lemma csv_validation_cex :
  validateCsv (Some deep_header_csv) = Ok (Some []) /\
  (2 < length (split dot "a.b.c"))%nat /\
  validateCsv (Some empty_then_deep_csv) = Exit MsgCsvEmpty /\
  (2 < length (split dot "transmitter.lat.deg"))%nat.
Proof. repeat split; vm_compute; try reflexivity; lia. Qed.

Definition entry_ok (e : entry) : Prop := entry_empty e = false /\ entry_deep e = false.

Lemma check_entry_bad (e : entry) :
  ~ entry_ok e -> check_entry e = Exit (if entry_empty e then MsgCsvEmpty else MsgCsvDepth).
Proof.
  unfold entry_ok. destruct e as [k [v|]|vs]; simpl; try reflexivity.
  destruct (String.eqb k "" || String.eqb v ""); [reflexivity|].
  destruct (2 <? length (split dot k))%nat; [reflexivity|].
  intros H. exfalso. apply H. split; reflexivity.
Qed.

(** C6 (amended): [__validateCsv] checks the data rows only (headers are
    seen through the rows).  When no item of any row is empty or deeper
    than two segments it returns the rows in file order; otherwise it
    exits at the first offending item in row order and column order, with
    the empty-field message when that item's header or value is missing or
    empty and with the depth message when it is not empty but its header
    has more than two segments.  It raises no exception, and when it
    exits the run ends without any request sent. *)
Theorem validateCsv_first_failure (recs : csv_records) :
  ((forall r e, In r (DictReader recs) -> In e r -> entry_ok e) ->
     validateCsv (Some recs) = Ok (Some (map (map entry_pair) (DictReader recs)))) /\
  (forall m, validateCsv (Some recs) = Exit m ->
     exists rows_pre r rows_post pre e post,
       DictReader recs = rows_pre ++ r :: rows_post /\
       (forall r' e', In r' rows_pre -> In e' r' -> entry_ok e') /\
       r = pre ++ e :: post /\
       (forall e', In e' pre -> entry_ok e') /\
       ((entry_empty e = true /\ m = MsgCsvEmpty) \/
        (entry_empty e = false /\ entry_deep e = true /\ m = MsgCsvDepth))) /\
  (forall rows_pre r rows_post pre e post,
     DictReader recs = rows_pre ++ r :: rows_post ->
     (forall r' e', In r' rows_pre -> In e' r' -> entry_ok e') ->
     r = pre ++ e :: post ->
     (forall e', In e' pre -> entry_ok e') ->
     ~ entry_ok e ->
     validateCsv (Some recs) =
     Exit (if entry_empty e then MsgCsvEmpty else MsgCsvDepth)) /\
  (forall ex, validateCsv (Some recs) <> Raise ex) /\
  (forall E m, input_csv E = Some recs -> validateCsv (Some recs) = Exit m ->
     sends (fst (run E)) = []).
Proof.
  split; [|split; [|split; [|split]]].
  - intros Hall. unfold validateCsv.
    rewrite (omap_all_ok validate_row (map entry_pair)).
    + reflexivity.
    + intros r Hr. apply omap_all_ok. intros e He.
      destruct (Hall r e Hr He) as [H1 H2]. exact (check_entry_good e H1 H2).
  - intros m H. unfold validateCsv in H.
    destruct (omap validate_row (DictReader recs)) as [rows|m'|ex] eqn:Hv;
      simpl in H; try discriminate.
    injection H as <-.
    destruct (omap_exit _ _ _ Hv) as (rows_pre & r & rows_post & Hd & Hpre & Hr).
    destruct (omap_exit _ _ _ Hr) as (pre & e & post & Hre & Hpe & He).
    exists rows_pre, r, rows_post, pre, e, post.
    split; [exact Hd|]. split.
    + intros r' e' Hr' He'. destruct (Hpre r' Hr') as [z Hz].
      destruct (omap_ok_all _ _ _ Hz e' He') as [z' Hz'].
      exact (check_entry_ok e' z' Hz').
    + split; [exact Hre|]. split; [|exact (check_entry_exit e m' He)].
      intros e' He'. destruct (Hpe e' He') as [z Hz]. exact (check_entry_ok e' z Hz).
  - intros rows_pre r rows_post pre e post Hd Hpre -> Hpe Hbad.
    unfold validateCsv. rewrite Hd.
    rewrite (omap_app_exit validate_row rows_pre (pre ++ e :: post) rows_post
               (if entry_empty e then MsgCsvEmpty else MsgCsvDepth)); [reflexivity| |].
    + intros y Hy. exists (map entry_pair y). apply omap_all_ok.
      intros x Hx. destruct (Hpre y x Hy Hx) as [H1 H2]. exact (check_entry_good x H1 H2).
    + unfold validate_row. apply omap_app_exit; [|exact (check_entry_bad e Hbad)].
      intros y Hy. exists (entry_pair y). destruct (Hpe y Hy) as [H1 H2].
      exact (check_entry_good y H1 H2).
  - intros ex. unfold validateCsv.
    destruct (omap validate_row (DictReader recs)) as [rows|m|ex'] eqn:Hv; simpl;
      try discriminate.
    intros Heq. injection Heq as ->.
    apply (omap_raise validate_row (DictReader recs) ex); [|exact Hv].
    intros r ex'. apply omap_raise. apply check_entry_no_raise.
  - intros E m Hcsv Hv. unfold run, init.
    unfold bind at 1, lift at 1. destruct (validateRequestType (requestType E)); try reflexivity.
    unfold bind at 1, lift at 1. destruct (validateApiKey (api_key E)); try reflexivity.
    unfold bind at 1, file_step. destruct (file_checks E); [reflexivity|]. unfold ret at 1.
    unfold bind at 1, template_step. destruct (template_file E); [|reflexivity].
    unfold ret at 1. unfold bind at 1, lift at 1. rewrite Hcsv, Hv. reflexivity.
Qed.

Lemma validateCsv_first_failure_witness :
  validateCsv (Some empty_then_deep_csv) = Exit MsgCsvEmpty /\
  validateCsv (Some [["power"; "a.b.c"]; ["1"; "2"]]) = Exit MsgCsvDepth /\
  sends (fst (run (ok_env (Some empty_then_deep_csv) lat_template))) = [].
Proof.
  split; [|split].
  - apply (proj1 (proj2 (proj2 (validateCsv_first_failure empty_then_deep_csv)))
             [] [Field "power" (Some ""); Field "transmitter.lat.deg" (Some "5")] []
             [] (Field "power" (Some "")) [Field "transmitter.lat.deg" (Some "5")]).
    + vm_compute. reflexivity.
    + intros r' e' [].
    + reflexivity.
    + intros e' [].
    + intros [H _]. discriminate H.
  - apply (proj1 (proj2 (proj2 (validateCsv_first_failure [["power"; "a.b.c"]; ["1"; "2"]])))
             [] [Field "power" (Some "1"); Field "a.b.c" (Some "2")] []
             [Field "power" (Some "1")] (Field "a.b.c" (Some "2")) []).
    + vm_compute. reflexivity.
    + intros r' e' [].
    + reflexivity.
    + intros e' [<-|[]]. split; reflexivity.
    + intros [_ H]. discriminate H.
  - apply (proj2 (proj2 (proj2 (proj2 (validateCsv_first_failure empty_then_deep_csv))))
             (ok_env (Some empty_then_deep_csv) lat_template) MsgCsvEmpty);
      vm_compute; reflexivity.
Defined.

(** ** Request names *)

Section RequestNames.
Local Open Scope nat_scope.

Definition digits_val (l : list ascii) : nat :=
  fold_left (fun acc c => 10 * acc + (nat_of_ascii c - 48)) l 0.

Lemma length_pad (w n : nat) : length (pad w n) = w.
Proof.
  revert n. induction w as [|w IH]; intros n; simpl; [reflexivity|].
  rewrite length_app, IH. simpl. lia.
Qed.

Lemma digits_val_snoc (l : list ascii) (c : ascii) :
  digits_val (l ++ [c]) = 10 * digits_val l + (nat_of_ascii c - 48).
Proof. unfold digits_val. rewrite fold_left_app. reflexivity. Qed.

Lemma digit_value (d : nat) : d < 10 -> nat_of_ascii (digit d) - 48 = d.
Proof. intros H. unfold digit. rewrite nat_ascii_embedding by lia. lia. Qed.

Lemma digits_val_pad (w n : nat) : digits_val (pad w n) = n mod 10 ^ w.
Proof.
  revert n. induction w as [|w IH]; intros n; cbn [pad]; [reflexivity|].
  rewrite digits_val_snoc, IH, digit_value by (apply Nat.mod_upper_bound; lia).
  rewrite Nat.pow_succ_r'.
  rewrite Nat.Div0.mod_mul_r. lia.
Qed.

Lemma pad_inj (w a b : nat) : a < 10 ^ w -> b < 10 ^ w -> pad w a = pad w b -> a = b.
Proof.
  intros Ha Hb H. apply (f_equal digits_val) in H. rewrite !digits_val_pad in H.
  rewrite !Nat.mod_small in H by assumption. exact H.
Qed.

Lemma pad_split (w k n : nat) : pad (w + k) n = pad w (n / 10 ^ k) ++ pad k n.
Proof.
  revert n. induction k as [|k IH]; intros n.
  - rewrite Nat.add_0_r, Nat.pow_0_r, Nat.div_1_r, app_nil_r. reflexivity.
  - rewrite Nat.add_succ_r. cbn [pad]. rewrite IH, <- app_assoc.
    rewrite Nat.Div0.div_div, Nat.pow_succ_r'. reflexivity.
Qed.

Lemma millis_digits (us : nat) : firstn 3 (pad 6 us) = pad 3 (us / 1000).
Proof.
  change 6 with (3 + 3). rewrite pad_split, firstn_app, length_pad.
  rewrite Nat.sub_diag, firstn_O, app_nil_r.
  rewrite firstn_all2 by (rewrite length_pad; lia). reflexivity.
Qed.

Lemma length_string_of_list_ascii (l : list ascii) :
  String.length (string_of_list_ascii l) = length l.
Proof. induction l as [|c l IH]; simpl; [reflexivity|]. rewrite IH. reflexivity. Qed.

Lemma app_inj_len {A} (a1 a2 b1 b2 : list A) :
  length a1 = length a2 -> a1 ++ b1 = a2 ++ b2 -> a1 = a2 /\ b1 = b2.
Proof.
  revert a2. induction a1 as [|x a1 IH]; intros [|y a2] Hl H; simpl in *; try lia.
  - split; [reflexivity|exact H].
  - injection H as -> H. destruct (IH a2 ltac:(lia) H) as [-> ->]. auto.
Qed.

End RequestNames.

(** The ranges of [datetime] fields, with a four-digit year. *)
Definition datetime_ok (d : datetime) : Prop :=
  (1000 <= dt_year d < 10 ^ 4 /\ 1 <= dt_month d <= 12 /\ 1 <= dt_day d <= 31 /\
   dt_hour d < 24 /\ dt_minute d < 60 /\ dt_second d < 60 /\ dt_microsecond d < 10 ^ 6)%nat.

(** X: a request name is 18 characters long, and two request names are
    equal exactly when the two timestamps agree on every field down to the
    second and fall in the same millisecond. *)
Theorem requestName_collision (a b : datetime) :
  datetime_ok a -> datetime_ok b ->
  String.length (requestName a) = 18%nat /\
  (requestName a = requestName b <->
   dt_year a = dt_year b /\ dt_month a = dt_month b /\ dt_day a = dt_day b /\
   dt_hour a = dt_hour b /\ dt_minute a = dt_minute b /\ dt_second a = dt_second b /\
   (dt_microsecond a / 10 ^ 3 = dt_microsecond b / 10 ^ 3)%nat).
Proof.
  intros Ha Hb.
  assert (Hy : forall d, datetime_ok d -> strftime_Y (dt_year d) = pad 4 (dt_year d)).
  { intros d Hd. unfold strftime_Y. destruct Hd as [[Hd _] _].
    apply Nat.leb_le in Hd. rewrite Hd. reflexivity. }
  unfold requestName. rewrite (Hy a Ha), (Hy b Hb), !millis_digits.
  split.
  - rewrite length_string_of_list_ascii, !length_app, !length_pad. reflexivity.
  - split.
    + intros H. apply (f_equal list_ascii_of_string) in H.
      rewrite !list_ascii_of_string_of_list_ascii in H.
      destruct Ha as (Hya & Hma & Hda & Hha & Hia & Hsa & Hua).
      destruct Hb as (Hyb & Hmb & Hdb & Hhb & Hib & Hsb & Hub).
      apply app_inj_len in H as [H1 H]; [|rewrite !length_pad; reflexivity].
      apply app_inj_len in H as [H2 H]; [|rewrite !length_pad; reflexivity].
      apply app_inj_len in H as [H3 H]; [|rewrite !length_pad; reflexivity].
      apply app_inj_len in H as [H4 H]; [|rewrite !length_pad; reflexivity].
      apply app_inj_len in H as [H5 H]; [|rewrite !length_pad; reflexivity].
      apply app_inj_len in H as [H6 H]; [|rewrite !length_pad; reflexivity].
      apply app_inj_len in H as [_ H7]; [|reflexivity].
      apply pad_inj in H1; [|exact (proj2 Hya)|exact (proj2 Hyb)].
      apply pad_inj in H2; [|cbn; lia|cbn; lia].
      apply pad_inj in H3; [|cbn; lia|cbn; lia].
      apply pad_inj in H4; [|cbn; lia|cbn; lia].
      apply pad_inj in H5; [|cbn; lia|cbn; lia].
      apply pad_inj in H6; [|cbn; lia|cbn; lia].
      apply pad_inj in H7;
        [|apply Nat.Div0.div_lt_upper_bound; change (dt_microsecond a < 10 ^ 3 * 10 ^ 3)%nat;
          rewrite <- Nat.pow_add_r; exact Hua
         |apply Nat.Div0.div_lt_upper_bound; change (dt_microsecond b < 10 ^ 3 * 10 ^ 3)%nat;
          rewrite <- Nat.pow_add_r; exact Hub].
      repeat split; assumption.
    + intros (-> & -> & -> & -> & -> & -> & H7).
      change (dt_microsecond a / 1000 = dt_microsecond b / 1000)%nat in H7.
      rewrite H7. reflexivity.
Qed.

Lemma requestName_collision_witness :
  String.length (requestName (mkDatetime 2026 10 17 9 5 3 4321)) = 18%nat /\
  (requestName (mkDatetime 2026 10 17 9 5 3 4321) =
   requestName (mkDatetime 2026 10 17 9 5 3 4999) <->
   2026 = 2026 /\ 10 = 10 /\ 17 = 17 /\ 9 = 9 /\ 5 = 5 /\ 3 = 3 /\
   (4321 / 10 ^ 3 = 4999 / 10 ^ 3))%nat.
Proof.
  apply (requestName_collision (mkDatetime 2026 10 17 9 5 3 4321)
                               (mkDatetime 2026 10 17 9 5 3 4999));
    unfold datetime_ok;
    repeat split; (apply Nat.leb_le || apply Nat.ltb_lt); vm_compute; reflexivity.
Defined.

(** ** The endpoint URL *)

Fixpoint slashes (k : nat) : string :=
  match k with O => EmptyString | S k' => String "/" (slashes k') end.

Lemma list_ascii_of_string_app (s1 s2 : string) :
  list_ascii_of_string (String.append s1 s2) =
  list_ascii_of_string s1 ++ list_ascii_of_string s2.
Proof. induction s1 as [|c s1 IH]; simpl; [reflexivity|]. rewrite IH. reflexivity. Qed.

Lemma rstrip_slash_snoc (s : string) : rstrip_slash (String.append s "/") = rstrip_slash s.
Proof.
  unfold rstrip_slash. rewrite list_ascii_of_string_app. simpl.
  rewrite rev_app_distr. reflexivity.
Qed.

Lemma slashes_snoc (k : nat) : slashes (S k) = String.append (slashes k) "/".
Proof. induction k as [|k IH]; simpl; [reflexivity|]. simpl in IH. rewrite IH. reflexivity. Qed.

Lemma str_append_nil_r (s : string) : String.append s EmptyString = s.
Proof. induction s as [|c s IH]; simpl; [reflexivity|]. rewrite IH. reflexivity. Qed.

Lemma str_append_assoc (a b c : string) :
  String.append (String.append a b) c = String.append a (String.append b c).
Proof. induction a as [|x a IH]; simpl; [reflexivity|]. rewrite IH. reflexivity. Qed.

Lemma drop_slashes_head (l : list ascii) (rest : list ascii) :
  drop_slashes l <> "/"%char :: rest.
Proof.
  induction l as [|c l IH]; simpl; [discriminate|].
  destruct (Ascii.eqb c "/") eqn:Hc; [exact IH|].
  intros H. injection H as -> _. discriminate Hc.
Qed.

(** X: the endpoint is the base URL without its trailing slashes, then
    ['/'] and the request type: the stripped base URL never ends in ['/'],
    and adding trailing slashes to the base URL does not change the
    endpoint. *)
Theorem request_url_trailing_slashes (E E' : env) (k : nat) :
  base_url E' = String.append (base_url E) (slashes k) ->
  requestType E' = requestType E ->
  request_url E' = request_url E /\
  (forall s, rstrip_slash (base_url E) <> String.append s "/").
Proof.
  intros Hb Hr. split.
  - unfold request_url. rewrite Hb, Hr. f_equal. clear Hb Hr.
    induction k as [|k IH].
    + simpl. rewrite str_append_nil_r. reflexivity.
    + rewrite slashes_snoc, <- str_append_assoc, rstrip_slash_snoc. exact IH.
  - intros s H. apply (f_equal list_ascii_of_string) in H.
    unfold rstrip_slash in H. rewrite list_ascii_of_string_of_list_ascii,
      list_ascii_of_string_app in H. simpl in H.
    apply (f_equal (@rev ascii)) in H. rewrite rev_involutive, rev_app_distr in H.
    simpl in H. exact (drop_slashes_head _ _ H).
Qed.

Definition base_env (url : string) : env :=
  mkEnv (Some "area") "12345-abcdefabcdefabcdefabcdefabcdefabcdefabcd"
        url None false None (inl []) (fun _ _ => Resp 200 "{}").

Lemma request_url_trailing_slashes_witness :
  request_url (base_env "https://api.cloudrf.com///") =
    request_url (base_env "https://api.cloudrf.com") /\
  (forall s, rstrip_slash (base_url (base_env "https://api.cloudrf.com")) <>
             String.append s "/").
Proof.
  apply (request_url_trailing_slashes (base_env "https://api.cloudrf.com")
           (base_env "https://api.cloudrf.com///") 3); reflexivity.
Defined.

(** ** Key order of the template under merging *)

Lemma dict_set_keys {V} (k : string) (v : V) (d : list (string * V)) :
  exists new, map fst (dict_set k v d) = map fst d ++ new /\ (forall x, In x new -> x = k).
Proof.
  induction d as [|[k' v'] d IH]; simpl.
  - exists [k]. split; [reflexivity|]. intros x [<-|[]]. reflexivity.
  - destruct (String.eqb k k').
    + exists []. split; [rewrite app_nil_r; reflexivity|intros x []].
    + destruct IH as (new & Hn & Hk). exists new. simpl. rewrite Hn. auto.
Qed.

Lemma apply_override_keys (t t' : jobj) (kv : string * string) :
  apply_override t kv = Ok t' ->
  exists new, map fst t' = map fst t ++ new /\
              (forall x, In x new -> x = override_root (fst kv)).
Proof.
  destruct kv as [key value]. unfold apply_override, override_root; simpl.
  destruct (split dot key) as [|p0 [|p1 [|p2 ps]]] eqn:Hs; intros H; try discriminate.
  - injection H as <-. pose proof (split_single _ _ _ Hs) as ->.
    exact (dict_set_keys key (JStr value) t).
  - destruct (dict_get p0 t) as [[]|]; try discriminate.
    injection H as <-. exact (dict_set_keys p0 _ t).
Qed.

(** X: a merge that succeeds never removes or reorders the template's
    top-level keys: the keys of the result are those of the template, in
    the same order, followed by new keys, each of them the first segment
    of one of the row's override keys. *)
Theorem customise_keeps_key_order (t t' : jobj) (row : csv_row) :
  customiseJsonFromCsvRow t row = Ok t' ->
  exists new, map fst t' = map fst t ++ new /\
    (forall x, In x new -> In x (map (fun kv => override_root (fst kv)) row)).
Proof.
  revert t. induction row as [|kv row IH]; simpl; intros t H.
  - injection H as <-. exists []. split; [rewrite app_nil_r; reflexivity|intros x []].
  - destruct (apply_override t kv) as [t1| |] eqn:Ha; simpl in H; try discriminate.
    destruct (apply_override_keys _ _ _ Ha) as (n1 & H1 & Hn1).
    destruct (IH t1 H) as (n2 & H2 & Hn2).
    exists (n1 ++ n2). split.
    + rewrite H2, H1, app_assoc. reflexivity.
    + intros x Hx. apply in_app_or in Hx as [Hx|Hx].
      * left. symmetry. exact (Hn1 x Hx).
      * right. exact (Hn2 x Hx).
Qed.

Lemma customise_keeps_key_order_witness :
  exists new, map fst [("transmitter", JObj [("lat", JStr "5.5"); ("lon", JNum 2)]);
                       ("power", JNum 10); ("frequency", JStr "868")] =
              map fst lat_template ++ new /\
    (forall x, In x new -> In x (map (fun kv => override_root (fst kv))
                                   [("frequency", "868"); ("transmitter.lat", "5.5")])).
Proof.
  apply (customise_keeps_key_order lat_template _ [("frequency", "868"); ("transmitter.lat", "5.5")]).
  vm_compute. reflexivity.
Defined.

(** ** What validation guarantees to the merge *)

Lemma omap_ok_elements {A B} (f : A -> outcome B) (l : list A) (zs : list B) :
  omap f l = Ok zs -> forall z, In z zs -> exists x, In x l /\ f x = Ok z.
Proof.
  revert zs. induction l as [|a l IH]; simpl; intros zs H z Hz.
  - injection H as <-. destruct Hz.
  - destruct (f a) as [y| |] eqn:Ha; simpl in H; try discriminate.
    destruct (omap f l) as [ys| |] eqn:Hl; simpl in H; try discriminate.
    injection H as <-. destruct Hz as [<-|Hz].
    + exists a. auto.
    + destruct (IH ys eq_refl z Hz) as (x & Hx & Hf). exists x. auto.
Qed.

Lemma omap_ok_map {A B} (f : A -> outcome B) (g : A -> B) (l : list A) (zs : list B) :
  (forall x z, f x = Ok z -> z = g x) -> omap f l = Ok zs -> zs = map g l.
Proof.
  intros Hfg. revert zs. induction l as [|a l IH]; simpl; intros zs H.
  - injection H as <-. reflexivity.
  - destruct (f a) as [y| |] eqn:Ha; simpl in H; try discriminate.
    destruct (omap f l) as [ys| |] eqn:Hl; simpl in H; try discriminate.
    injection H as <-. rewrite (Hfg a y Ha), (IH ys eq_refl). reflexivity.
Qed.

Lemma check_entry_pair (e : entry) (z : string * string) :
  check_entry e = Ok z ->
  z = entry_pair e /\ fst z <> "" /\ snd z <> "" /\ (length (split dot (fst z)) <= 2)%nat.
Proof.
  destruct e as [k [v|]|vs]; simpl; try discriminate.
  destruct (String.eqb k "") eqn:Hk; simpl; [discriminate|].
  destruct (String.eqb v "") eqn:Hv; simpl; [discriminate|].
  destruct (2 <? length (split dot k))%nat eqn:Hd; [discriminate|].
  intros H. injection H as <-. apply String.eqb_neq in Hk, Hv.
  apply Nat.ltb_ge in Hd. simpl. auto.
Qed.

Lemma apply_override_no_exit (t : jobj) (kv : string * string) (m : exit_msg) :
  (length (split dot (fst kv)) <= 2)%nat -> apply_override t kv <> Exit m.
Proof.
  destruct kv as [key value]. unfold apply_override. simpl. intros Hl.
  destruct (split dot key) as [|p0 [|p1 [|p2 ps]]] eqn:Hs; simpl in Hl.
  - exfalso. exact (split_nonnil _ _ Hs).
  - discriminate.
  - destruct (dict_get p0 t) as [[]|]; discriminate.
  - lia.
Qed.

(** X: [__validateCsv] returns exactly the rows [csv.DictReader] reads,
    as (header, value) pairs in column order, one per non-blank record
    after the header; every returned pair has a non-empty header of at
    most two segments and a non-empty value, so merging a returned row
    into any template never reaches the merge's own depth exit (it can
    only succeed or raise). *)
Theorem validated_rows_merge_safely (hdr : list string) (body : csv_records)
        (rows : list csv_row) :
  validateCsv (Some (hdr :: body)) = Ok (Some rows) ->
  rows = map (fun r => map entry_pair (dict_row hdr r))
             (filter (fun r => negb (is_blank r)) body) /\
  length rows = length (filter (fun r => negb (is_blank r)) body) /\
  (forall r kv, In r rows -> In kv r ->
     fst kv <> "" /\ snd kv <> "" /\ (length (split dot (fst kv)) <= 2)%nat) /\
  (forall r t m, In r rows -> customiseJsonFromCsvRow t r <> Exit m).
Proof.
  intros H. unfold validateCsv in H.
  destruct (omap validate_row (DictReader (hdr :: body))) as [rs| |] eqn:Hv;
    simpl in H; try discriminate.
  injection H as <-.
  assert (Hprops : forall r kv, In r rs -> In kv r ->
            fst kv <> "" /\ snd kv <> "" /\ (length (split dot (fst kv)) <= 2)%nat).
  { intros r kv Hr Hkv.
    destruct (omap_ok_elements _ _ _ Hv r Hr) as (pr & _ & Hpr).
    destruct (omap_ok_elements _ _ _ Hpr kv Hkv) as (e & _ & He).
    apply check_entry_pair in He as (_ & H1 & H2 & H3). auto. }
  assert (Hrows : rs = map (fun r => map entry_pair (dict_row hdr r))
                           (filter (fun r => negb (is_blank r)) body)).
  { rewrite (omap_ok_map validate_row (map entry_pair) (DictReader (hdr :: body)) rs).
    - unfold DictReader. rewrite map_map. reflexivity.
    - intros x z Hz. apply (omap_ok_map check_entry entry_pair x z); [|exact Hz].
      intros e p Hp. apply check_entry_pair in Hp. apply Hp.
    - exact Hv. }
  split; [exact Hrows|]. split; [rewrite Hrows, length_map; reflexivity|].
  split; [exact Hprops|].
  intros r t m Hr. assert (Hkv := fun kv Hkv => Hprops r kv Hr Hkv). clear Hr Hrows.
  revert t. induction r as [|kv r IH]; simpl; intros t; [discriminate|].
  destruct (apply_override t kv) as [t1|m'|e] eqn:Ha; simpl.
  - apply IH. intros kv' Hkv'. apply Hkv. right. exact Hkv'.
  - exfalso. destruct (Hkv kv (or_introl eq_refl)) as (_ & _ & Hl).
    exact (apply_override_no_exit t kv m' Hl Ha).
  - discriminate.
Qed.

Lemma validated_rows_merge_safely_witness :
  let rows := [[("transmitter.lat", "5.5"); ("power", "20")]] in
  rows = map (fun r => map entry_pair (dict_row ["transmitter.lat"; "power"] r))
             (filter (fun r => negb (is_blank r)) [[]; ["5.5"; "20"]]) /\
  length rows = length (filter (fun r => negb (is_blank r)) [[]; ["5.5"; "20"]]) /\
  (forall r kv, In r rows -> In kv r ->
     fst kv <> "" /\ snd kv <> "" /\ (length (split dot (fst kv)) <= 2)%nat) /\
  (forall r t m, In r rows -> customiseJsonFromCsvRow t r <> Exit m).
Proof.
  apply (validated_rows_merge_safely ["transmitter.lat"; "power"] [[]; ["5.5"; "20"]]).
  vm_compute. reflexivity.
Defined.

(** ** Records whose length differs from the header *)

Lemma set_field_Forall (P : entry -> Prop) (k : string) (v : option string) (d : pyrow) :
  Forall P d -> P (Field k v) -> Forall P (set_field k v d).
Proof.
  intros Hd Hk. induction Hd as [|e d He Hd IH]; simpl; [constructor; [exact Hk|constructor]|].
  destruct e as [k' v'|vs].
  - destruct (String.eqb k k') eqn:E.
    + apply String.eqb_eq in E. subst k'. constructor; assumption.
    + constructor; assumption.
  - constructor; assumption.
Qed.

Lemma set_field_In (k : string) (v : option string) (d : pyrow) :
  In (Field k v) (set_field k v d).
Proof.
  induction d as [|e d IH]; simpl; [left; reflexivity|].
  destruct e as [k' v'|vs]; [|right; exact IH].
  destruct (String.eqb k k') eqn:E; [|right; exact IH].
  apply String.eqb_eq in E. subst k'. left. reflexivity.
Qed.

Lemma fold_set_none_In (ks : list string) (d : pyrow) :
  ks <> [] -> exists k, In (Field k None) (fold_left (fun d k => set_field k None d) ks d).
Proof.
  revert d. induction ks as [|k ks IH]; intros d Hne; [congruence|].
  destruct ks as [|k2 ks].
  - exists k. simpl. apply set_field_In.
  - apply IH. discriminate.
Qed.

Lemma fold_set_Forall {A} (P : entry -> Prop) (f : A -> string) (g : A -> option string)
      (l : list A) (d : pyrow) :
  Forall P d -> (forall x, In x l -> P (Field (f x) (g x))) ->
  Forall P (fold_left (fun d x => set_field (f x) (g x) d) l d).
Proof.
  revert d. induction l as [|x l IH]; simpl; intros d Hd Hl; [exact Hd|].
  apply IH; [apply set_field_Forall; [exact Hd|apply Hl; left; reflexivity]|].
  intros y Hy. apply Hl. right. exact Hy.
Qed.

Lemma in_skipn_in {A} (n : nat) (l : list A) (x : A) : In x (skipn n l) -> In x l.
Proof.
  revert l. induction n as [|n IH]; intros [|y l] H; simpl in *; auto.
Qed.

Definition header_key (hdr : list string) (e : entry) : Prop :=
  match e with Field k _ => In k hdr | Rest _ => True end.

Lemma dict_row_keys (hdr rec : list string) : Forall (header_key hdr) (dict_row hdr rec).
Proof.
  unfold dict_row.
  assert (H0 : Forall (header_key hdr)
     (fold_left (fun d kv => set_field (fst kv) (Some (snd kv)) d) (combine hdr rec) [])).
  { apply (fold_set_Forall (header_key hdr) fst (fun kv => Some (snd kv))); [constructor|].
    intros [k v] Hkv. simpl. exact (in_combine_l _ _ _ _ Hkv). }
  destruct (length hdr <? length rec)%nat.
  - apply Forall_app. split; [exact H0|]. repeat constructor.
  - destruct (length rec <? length hdr)%nat; [|exact H0].
    apply (fold_set_Forall (header_key hdr) (fun k => k) (fun _ => None)); [exact H0|].
    intros k Hk. simpl. exact (in_skipn_in _ _ _ Hk).
Qed.

Lemma dict_row_has_empty (hdr rec : list string) :
  length rec <> length hdr -> exists e, In e (dict_row hdr rec) /\ entry_empty e = true.
Proof.
  intros Hl. unfold dict_row.
  destruct (length hdr <? length rec)%nat eqn:H1.
  - exists (Rest (skipn (length hdr) rec)). split; [|reflexivity].
    apply in_or_app. right. left. reflexivity.
  - destruct (length rec <? length hdr)%nat eqn:H2.
    + destruct (fold_set_none_In (skipn (length rec) hdr)
                  (fold_left (fun d kv => set_field (fst kv) (Some (snd kv)) d)
                     (combine hdr rec) [])) as [k Hk].
      * intros He. apply (f_equal (@length string)) in He.
        rewrite length_skipn in He. simpl in He. apply Nat.ltb_lt in H2. lia.
      * exists (Field k None). split; [exact Hk|reflexivity].
    + apply Nat.ltb_ge in H1, H2. lia.
Qed.

Lemma omap_check_entry_empty (l : pyrow) :
  (forall e, In e l -> entry_deep e = false) ->
  (exists e, In e l /\ entry_empty e = true) ->
  omap check_entry l = Exit MsgCsvEmpty.
Proof.
  induction l as [|e l IH]; simpl; intros Hd (x & Hx & Hex); [destruct Hx|].
  destruct (entry_empty e) eqn:He.
  - destruct e as [k [v|]|vs]; simpl in *; try reflexivity.
    rewrite He. reflexivity.
  - assert (Hc : check_entry e = Ok (entry_pair e)).
    { apply check_entry_good; [exact He|apply Hd; left; reflexivity]. }
    rewrite Hc. simpl. rewrite IH; [reflexivity| |].
    + intros y Hy. apply Hd. right. exact Hy.
    + destruct Hx as [<-|Hx]; [congruence|]. exists x. auto.
Qed.

(** X: when every header name has at most two segments, the first data
    record that is not blank and has fewer or more fields than the header
    makes [__validateCsv] exit with the empty-header-or-value message
    (missing fields get the value [None], extra fields the key [None]). *)
Theorem csv_length_mismatch_fails (hdr rec : list string) (rest : csv_records) :
  (forall h, In h hdr -> length (split dot h) <= 2)%nat ->
  rec <> [] -> length rec <> length hdr ->
  validateCsv (Some (hdr :: rec :: rest)) = Exit MsgCsvEmpty.
Proof.
  intros Hh Hne Hl. unfold validateCsv, DictReader. simpl.
  destruct rec as [|f rec]; [congruence|]. simpl.
  unfold validate_row at 1.
  rewrite omap_check_entry_empty; [reflexivity| |exact (dict_row_has_empty _ _ Hl)].
  intros e He. pose proof (proj1 (Forall_forall _ _) (dict_row_keys hdr (f :: rec)) e He) as Hk.
  destruct e as [k v|vs]; simpl in *; [|reflexivity].
  apply Nat.ltb_ge. exact (Hh k Hk).
Qed.

Lemma csv_length_mismatch_fails_witness :
  validateCsv (Some [["transmitter.lat"; "transmitter.lon"]; ["5.5"]; ["1"; "2"]]) =
  Exit MsgCsvEmpty.
Proof.
  apply csv_length_mismatch_fails.
  - intros h [<-|[<-|[]]]; vm_compute; lia.
  - discriminate.
  - discriminate.
Defined.

(** ** Transport failures in the request loop *)

(** X: when sending a row's request fails with an SSL error the run exits
    with the SSL advice message right after that request; any other
    transport error escapes as an uncaught exception; either way the rows
    after it are never processed. *)
Theorem transport_failure_aborts (E : env) (n : nat) (t b : jobj) (row : csv_row)
        (rows : list csv_row) (tr : list event) :
  customiseJsonFromCsvRow t row = Ok b ->
  (server E n b = SslErr ->
     run_rows E n t (row :: rows) tr =
     (tr ++ [ESend (request_url E) (api_key E) b], Exit MsgSsl)) /\
  (server E n b = NetErr ->
     run_rows E n t (row :: rows) tr =
     (tr ++ [ESend (request_url E) (api_key E) b], Raise TransportError)).
Proof.
  intros Hc. split; intros Hs; simpl; unfold bind at 1, lift; rewrite Hc;
    unfold bind at 1, calculate, bind at 1, emit; rewrite Hs; reflexivity.
Qed.

Definition ssl_env : env :=
  mkEnv (Some "area") "12345-abcdefabcdefabcdefabcdefabcdefabcdefabcd"
        "https://api.cloudrf.com/" None false None (inl []) (fun _ _ => SslErr).

Lemma transport_failure_aborts_witness :
  run_rows ssl_env 0 [] [[("power", "1")]; [("power", "2")]] [] =
  ([ESend "https://api.cloudrf.com/area" "12345-abcdefabcdefabcdefabcdefabcdefabcdefabcd"
          [("power", JStr "1")]], Exit MsgSsl).
Proof.
  apply (proj1 (transport_failure_aborts ssl_env 0 [] [("power", JStr "1")]
                  [("power", "1")] [[("power", "2")]] [] eq_refl)).
  reflexivity.
Defined.

(** ** Whole runs *)

Lemma customise_single_segment (t : jobj) (row : csv_row) :
  Forall (fun kv => length (split dot (fst kv)) = 1%nat) row ->
  exists t', customiseJsonFromCsvRow t row = Ok t'.
Proof.
  intros H. revert t. induction H as [|[key value] row Hkv H IH]; intros t; simpl.
  - eexists. reflexivity.
  - unfold apply_override. simpl in Hkv.
    destruct (split dot key) as [|p [|p1 ps]]; simpl in Hkv; try discriminate.
    simpl. apply IH.
Qed.

(** X: in the CSV loop of [__init__], starting from a template that is a
    JSON object, when every header of every row is a single plain key,
    every response is HTTP 200 and verbose output is off, the loop sends
    exactly one request per row, to the request URL with the API key,
    appends nothing else to the trace and finishes without exiting. *)
Theorem csv_loop_one_request_per_row (E : env) (n : nat) (t : jobj) (rows : list csv_row)
        (tr : list event) :
  verbose E = false ->
  (forall i b, exists text, server E i b = Resp 200 text) ->
  Forall (Forall (fun kv => length (split dot (fst kv)) = 1%nat)) rows ->
  exists bs, run_rows E n t rows tr =
             (tr ++ map (ESend (request_url E) (api_key E)) bs, Ok tt) /\
             length bs = length rows.
Proof.
  intros Hv Hs Hr. revert n t tr. induction Hr as [|row rows Hrow Hr IH]; intros n t tr.
  - exists []. simpl. rewrite app_nil_r. split; reflexivity.
  - destruct (customise_single_segment t row Hrow) as [b Hb].
    destruct (Hs n b) as [text Ht].
    destruct (IH (S n) b (tr ++ [ESend (request_url E) (api_key E) b])) as (bs & Hbs & Hl).
    exists (b :: bs). split; [|simpl; rewrite Hl; reflexivity].
    simpl. unfold bind at 1, lift. rewrite Hb. unfold bind at 1.
    rewrite (calculate_200 E n b text tr Ht), Hv, Hbs, <- app_assoc. reflexivity.
Qed.

Lemma csv_loop_one_request_per_row_witness :
  exists bs, run_rows (ok_env None lat_template) 0 lat_template
               [[("power", "10")]; [("power", "20"); ("frequency", "900")]] [] =
             (map (ESend (request_url (ok_env None lat_template))
                         (api_key (ok_env None lat_template))) bs, Ok tt) /\
             length bs = 2%nat.
Proof.
  apply (csv_loop_one_request_per_row (ok_env None lat_template) 0 lat_template
           [[("power", "10")]; [("power", "20"); ("frequency", "900")]] []).
  - reflexivity.
  - intros i b. exists "{}". reflexivity.
  - repeat constructor.
Defined.

(** X: a request is only ever sent after every check of [__init__] has
    passed: the request type, the API key, the file checks, the template
    load and the CSV validation. *)
Theorem request_requires_all_checks (E : env) :
  sends (fst (run E)) <> [] ->
  validateRequestType (requestType E) = Ok tt /\
  validateApiKey (api_key E) = Ok tt /\
  file_checks E = None /\
  (exists t, template_file E = inl t) /\
  (exists ro, validateCsv (input_csv E) = Ok ro).
Proof.
  intros Hs. unfold run, init in Hs.
  unfold bind at 1, lift at 1 in Hs.
  destruct (validateRequestType (requestType E)) as [[]| |] eqn:H1;
    try (exfalso; apply Hs; reflexivity).
  unfold bind at 1, lift at 1 in Hs.
  destruct (validateApiKey (api_key E)) as [[]| |] eqn:H2;
    try (exfalso; apply Hs; reflexivity).
  unfold bind at 1, file_step in Hs.
  destruct (file_checks E) as [f|] eqn:H3;
    [exfalso; apply Hs; reflexivity|]. unfold ret at 1 in Hs.
  unfold bind at 1, template_step in Hs.
  destruct (template_file E) as [t|f] eqn:H4;
    [|exfalso; apply Hs; reflexivity]. unfold ret at 1 in Hs.
  unfold bind at 1, lift at 1 in Hs.
  destruct (validateCsv (input_csv E)) as [ro| |] eqn:H5;
    try (exfalso; apply Hs; reflexivity).
  repeat split; eauto.
Qed.

Lemma request_requires_all_checks_witness :
  let E := ok_env None lat_template in
  validateRequestType (requestType E) = Ok tt /\
  validateApiKey (api_key E) = Ok tt /\
  file_checks E = None /\
  (exists t, template_file E = inl t) /\
  (exists ro, validateCsv (input_csv E) = Ok ro).
Proof.
  apply (request_requires_all_checks (ok_env None lat_template)).
  vm_compute. discriminate.
Defined.
